(** * ProductsScreen: the fetch / view-state logic of [app/(tabs)/index.tsx]

    The screen keeps three pieces of React state ([products], [loading],
    [error]), one asynchronous function [fetchProducts] and one synchronous
    handler [handleSearch].  The render function picks one of four views
    from the three pieces of state.

    The development embeds this logic as follows.
    - The component state is a record; the three [useState] setters are
      state-monad actions over a world made of that record and the console.
    - [fetchProducts] is split at its single [await]: the part before it,
      and the two continuations (promise fulfilled / promise rejected, each
      followed by the [finally] block).  A continuation runs atomically, as
      the JavaScript event loop guarantees.
    - The promises returned by [getProducts()] that have not settled yet are
      kept in a runtime record, numbered in issue order, so that traces can
      settle them in any order. *)

From Stdlib Require Import List String Ascii Bool Arith Lia.
From Stdlib Require Import DecimalString.
Import ListNotations.
Local Open Scope string_scope.

(** ** JavaScript strings

    A [string] stands for the JavaScript string whose code units are its
    characters, read as numbers: the character of code 201 is U+00C9.  The
    strings of this development are therefore those whose code units are
    all below U+0100. *)

Module JsString.

(** [String.prototype.toLowerCase] on one code unit below U+0100: the
    letters A-Z (U+0041 to U+005A) and the capital letters of U+00C0 to
    U+00DE, the multiplication sign U+00D7 apart, move up by 32; every
    other code unit of that range is its own lower case. *)
Definition lower_unit (c : ascii) : ascii :=
  let n := nat_of_ascii c in
  if (((65 <=? n)%nat && (n <=? 90)%nat)
      || ((192 <=? n)%nat && (n <=? 222)%nat && negb (n =? 215)%nat))%bool
  then ascii_of_nat (n + 32) else c.

Fixpoint toLowerCase (s : string) : string :=
  match s with
  | EmptyString => EmptyString
  | String c t => String (lower_unit c) (toLowerCase t)
  end.

(** [hay.startsWith(needle)]. *)
Fixpoint startsWith (hay needle : string) : bool :=
  match needle, hay with
  | EmptyString, _ => true
  | String _ _, EmptyString => false
  | String a n', String b h' => Ascii.eqb a b && startsWith h' n'
  end.

(** [hay.includes(needle)]: [needle] occurs at some position of [hay]. *)
Fixpoint includes (hay needle : string) : bool :=
  startsWith hay needle ||
  match hay with
  | EmptyString => false
  | String _ h' => includes h' needle
  end.

End JsString.

(** ** Data model *)

(** A primitive value that the screen only converts to text
    ([item.id.toString()], [`${item.id}`], [`${item.price}`]): a number,
    whole or fractional, or a string.  It is kept as its kind and the text
    JavaScript prints for it; that text is the string itself for a string,
    and it tells two numbers apart (the sign of zero aside). *)
Inductive JsKind : Set :=
| KNumber
| KString.

Record JsPrimitive : Set := mkJsPrimitive {
  kind : JsKind;
  printed : string
}.

(** The number that JavaScript prints as [text]. *)
Definition number (text : string) : JsPrimitive :=
  {| kind := KNumber; printed := text |}.

(** [Product] is imported from [@/app/services/productService]; the screen
    reads the four fields below ([item.id], [item.name], [item.price],
    [item.description]). *)
Record Product : Set := mkProduct {
  id : JsPrimitive;
  name : string;
  price : JsPrimitive;
  description : string
}.

(** The value a rejected [getProducts()] promise carries ([err] in the
    [catch] clause). *)
Record RawError : Set := mkRawError { detail : string }.

(** React state of the component, lines 9-11. *)
Record State : Set := mkState {
  products : list Product;
  loading : bool;
  error : option string
}.

(** What has been written to the console. *)
Inductive LogEntry : Set :=
| ConsoleLog (label : string) (payload : list Product)
| ConsoleError (label : string) (payload : RawError).

Record World : Set := mkWorld {
  ui : State;
  console : list LogEntry
}.

(** [useState] initial values. *)
Definition initialState : State :=
  {| products := []; loading := false; error := None |}.

(** ** A small state monad for the component's effects *)

Definition Eff (A : Type) : Type := World -> A * World.

Definition ret {A} (a : A) : Eff A := fun w => (a, w).

Definition bind {A B} (m : Eff A) (k : A -> Eff B) : Eff B :=
  fun w => let (a, w') := m w in k a w'.

Definition exec {A} (m : Eff A) (w : World) : World := snd (m w).

Declare Scope eff_scope.
Delimit Scope eff_scope with eff.
Notation "m ;; k" := (bind m (fun _ => k))
  (at level 61, right associativity) : eff_scope.
Notation "x <- m ;; k" := (bind m (fun x => k))
  (at level 61, m at next level, right associativity) : eff_scope.

Definition modify_ui (f : State -> State) : Eff unit :=
  fun w => (tt, {| ui := f (ui w); console := console w |}).

Definition getProductsState : Eff (list Product) :=
  fun w => (products (ui w), w).

Definition setProducts (ps : list Product) : Eff unit :=
  modify_ui (fun s =>
    {| products := ps; loading := loading s; error := error s |}).

Definition setLoading (b : bool) : Eff unit :=
  modify_ui (fun s =>
    {| products := products s; loading := b; error := error s |}).

Definition setError (e : option string) : Eff unit :=
  modify_ui (fun s =>
    {| products := products s; loading := loading s; error := e |}).

Definition console_log (label : string) (ps : list Product) : Eff unit :=
  fun w => (tt, {| ui := ui w; console := console w ++ [ConsoleLog label ps] |}).

Definition console_error (label : string) (e : RawError) : Eff unit :=
  fun w => (tt, {| ui := ui w; console := console w ++ [ConsoleError label e] |}).

(** ** The component's functions *)

Local Open Scope eff_scope.

(** [fetchProducts], lines 16-17: what runs before the [await]. *)
Definition fetchProducts_begin : Eff unit :=
  setLoading true ;;
  setError None.

(** [fetchProducts], lines 19-21 and 26: [getProducts()] fulfilled with
    [fetchedProducts]; the [finally] block follows. *)
Definition fetchProducts_fulfilled (fetchedProducts : list Product) : Eff unit :=
  console_log "Fetched products:" fetchedProducts ;;
  setProducts fetchedProducts ;;
  setLoading false.

(** [fetchProducts], lines 22-24 and 26: [getProducts()] rejected with
    [err]; the [finally] block follows. *)
Definition fetchProducts_rejected (err : RawError) : Eff unit :=
  setError (Some "Failed to fetch products") ;;
  console_error "Error fetching products:" err ;;
  setLoading false.

(** The predicate of the [filter] call, line 37. *)
Definition matchesQuery (query : string) (product : Product) : bool :=
  JsString.includes (JsString.toLowerCase (name product))
                    (JsString.toLowerCase query).

(** [handleSearch], lines 35-40. *)
Definition handleSearch (query : string) : Eff unit :=
  current <- getProductsState ;;
  let filtered := filter (matchesQuery query) current in
  setProducts filtered.

Local Close Scope eff_scope.

(** ** What the screen shows *)

(** The four [return] statements of the component, lines 59-110, as the
    tagged view state they stand for.  The component keeps a single array:
    [products] is both what [handleSearch] filters from (line 36) and what
    the grid displays (line 102), so it fills both fields of [Loaded]. *)
Inductive ViewState : Set :=
| Loading
| Error (message : string)
| Empty
| Loaded (allProducts visibleProducts : list Product).

(** [if (error)]: [null] and the empty string are falsy. *)
Definition truthy (e : option string) : option string :=
  match e with
  | Some (String _ _ as m) => Some m
  | _ => None
  end.

Definition viewState (s : State) : ViewState :=
  if loading s then Loading
  else match truthy (error s) with
       | Some message => Error message
       | None =>
           match products s with
           | [] => Empty
           | _ :: _ => Loaded (products s) (products s)
           end
       end.

Definition isLoaded (v : ViewState) : bool :=
  match v with
  | Loaded _ _ => true
  | _ => false
  end.

(** ** The event loop around the component *)

(** How a [getProducts()] promise settles. *)
Inductive Outcome : Set :=
| Fulfilled (fetchedProducts : list Product)
| Rejected (err : RawError).

(** [pending] holds the calls of [getProducts()] whose promise has not
    settled; calls are numbered in the order they were issued. *)
Record Runtime : Set := mkRuntime {
  world : World;
  pending : list nat;
  issued : nat
}.

Inductive Event : Set :=
| Refresh                                   (* [fetchProducts()] is called *)
| Settle (request : nat) (o : Outcome)      (* a pending promise settles *)
| Search (query : string).                  (* [onSearch(query)] fires *)

Definition continuation (o : Outcome) : Eff unit :=
  match o with
  | Fulfilled fetchedProducts => fetchProducts_fulfilled fetchedProducts
  | Rejected err => fetchProducts_rejected err
  end.

Definition isPending (request : nat) (rt : Runtime) : bool :=
  existsb (Nat.eqb request) (pending rt).

Definition step (e : Event) (rt : Runtime) : Runtime :=
  match e with
  | Refresh =>
      {| world := exec fetchProducts_begin (world rt);
         pending := issued rt :: pending rt;
         issued := S (issued rt) |}
  | Settle request o =>
      if isPending request rt then
        {| world := exec (continuation o) (world rt);
           pending := filter (fun r => negb (Nat.eqb request r)) (pending rt);
           issued := issued rt |}
      else rt
  | Search query =>
      {| world := exec (handleSearch query) (world rt);
         pending := pending rt;
         issued := issued rt |}
  end.

Definition run (events : list Event) (rt : Runtime) : Runtime :=
  fold_left (fun acc e => step e acc) events rt.

Definition initialRuntime : Runtime :=
  {| world := {| ui := initialState; console := [] |};
     pending := [];
     issued := 0 |}.

Definition screen (rt : Runtime) : ViewState := viewState (ui (world rt)).

Definition shownProducts (rt : Runtime) : list Product := products (ui (world rt)).

(** The list stored by the most recent fulfilled fetch of a trace, if any. *)
Fixpoint lastFetched (events : list Event) (rt : Runtime) : option (list Product) :=
  match events with
  | [] => None
  | e :: rest =>
      match lastFetched rest (step e rt) with
      | Some ps => Some ps
      | None =>
          match e with
          | Settle request (Fulfilled ps) =>
              if isPending request rt then Some ps else None
          | _ => None
          end
      end
  end.

(** Sample catalogue. *)
Definition chair : Product :=
  {| id := number "1"; name := "Chair"; price := number "50"; description := "x" |}.
Definition table : Product :=
  {| id := number "2"; name := "Table"; price := number "120"; description := "y" |}.
Definition timeout_err : RawError := {| detail := "Network request failed" |}.

(** The search queries of a trace that came after its last fulfilled fetch
    (all of them when no fetch was fulfilled), oldest first. *)
Fixpoint queriesSinceFetch (events : list Event) (rt : Runtime) : list string :=
  match events with
  | [] => []
  | e :: rest =>
      let later := queriesSinceFetch rest (step e rt) in
      match e, lastFetched rest (step e rt) with
      | Search query, None => query :: later
      | _, _ => later
      end
  end.

(** [queries.every(q => name matches q)]. *)
Definition matchesAll (queries : list string) (product : Product) : bool :=
  forallb (fun query => matchesQuery query product) queries.

(** ** Values as text *)

Module JsValue.

(** [v.toString()] and [`${v}`] for a number or a string [v]. *)
Definition toString (v : JsPrimitive) : string := printed v.

(** [String(index)] for the index of a list cell, a whole number from 0
    up: its decimal digits. *)
Definition ofIndex (index : nat) : string :=
  NilEmpty.string_of_uint (Nat.to_uint index).

End JsValue.

(** ** The element tree returned by the component *)

(** What a [TouchableOpacity] does when pressed. *)
Inductive Press : Set :=
| CallFetchProducts                (* [onPress={fetchProducts}], line 81 *)
| RouterPush (route : string).     (* [router.push(...)], line 46 *)

#[warnings="-register-all"] Inductive Node : Set :=
| Header                           (* [<Header onSearch={handleSearch} />] *)
| Text (content : string)
| Image (uri : string)
| SkeletonLoader
| TouchableOpacity (onPress : Press) (children : list Node)
| FlatList (cells : list (string * Node)).   (* key, rendered item *)

(** [renderItem], lines 43-56. *)
Definition renderItem (item : Product) : Node :=
  TouchableOpacity
    (RouterPush ("/product/" ++ JsValue.toString (id item)))
    [ Image "https://via.placeholder.com/150";
      Text (name item);
      Text ("$" ++ JsValue.toString (price item));
      Text (description item) ].

(** The list of line 63: ten placeholders, keyed by [String(index)]. *)
Definition skeletonCells : list (string * Node) :=
  map (fun index => (JsValue.ofIndex index, SkeletonLoader)) (seq 0 10).

(** The list of line 101: one cell per product, keyed by
    [item.id.toString()]. *)
Definition productCells (data : list Product) : list (string * Node) :=
  map (fun item => (JsValue.toString (id item), renderItem item)) data.

(** The children of the root [View] in each of the four [return]
    statements, lines 59-110. *)
Definition render (s : State) : list Node :=
  if loading s then [Header; FlatList skeletonCells]
  else match truthy (error s) with
       | Some message =>
           [Header; Text message;
            TouchableOpacity CallFetchProducts [Text "Try Again"]]
       | None =>
           match products s with
           | [] => [Header; Text "No products found."]
           | _ :: _ => [Header; FlatList (productCells (products s))]
           end
       end.

(** The press handlers found in a tree, in document order. *)
Fixpoint presses (n : Node) : list Press :=
  match n with
  | TouchableOpacity onPress children => onPress :: flat_map presses children
  | FlatList cells => flat_map (fun cell => presses (snd cell)) cells
  | _ => []
  end.

(** The keys of the list cells found in a tree. *)
Fixpoint cellKeys (n : Node) : list string :=
  match n with
  | TouchableOpacity _ children => flat_map cellKeys children
  | FlatList cells =>
      (map fst cells ++ flat_map (fun cell => cellKeys (snd cell)) cells)%list
  | _ => []
  end.

Definition isHeader (n : Node) : bool :=
  match n with
  | Header => true
  | _ => false
  end.

Definition Press_eqb (a b : Press) : bool :=
  match a, b with
  | CallFetchProducts, CallFetchProducts => true
  | RouterPush x, RouterPush y => String.eqb x y
  | _, _ => false
  end.

(** ** What the user can do *)

Inductive UserAction : Set :=
| TypeQuery (query : string)       (* the header calls [onSearch(query)] *)
| PressTouchable (p : Press).

(** The screen together with the navigation stack of the router. *)
Record App : Set := mkApp {
  runtime : Runtime;
  pushed : list string
}.

(** An action is offered when the element that carries it is on screen. *)
Definition offered (s : State) (a : UserAction) : bool :=
  match a with
  | TypeQuery _ => existsb isHeader (render s)
  | PressTouchable p => existsb (Press_eqb p) (flat_map presses (render s))
  end.

Definition perform (a : UserAction) (app : App) : App :=
  match a with
  | TypeQuery query =>
      {| runtime := step (Search query) (runtime app); pushed := pushed app |}
  | PressTouchable CallFetchProducts =>
      {| runtime := step Refresh (runtime app); pushed := pushed app |}
  | PressTouchable (RouterPush route) =>
      {| runtime := runtime app; pushed := (pushed app ++ [route])%list |}
  end.

(** Performs the actions in turn; [None] when one of them is not offered
    by the screen at the moment it is attempted. *)
Fixpoint userRun (actions : list UserAction) (app : App) : option App :=
  match actions with
  | [] => Some app
  | a :: rest =>
      if offered (ui (world (runtime app))) a
      then userRun rest (perform a app)
      else None
  end.

(** ** Equations of the component's functions *)

Lemma exec_fetchProducts_begin (w : World) :
  exec fetchProducts_begin w =
  {| ui := {| products := products (ui w); loading := true; error := None |};
     console := console w |}.
Proof. reflexivity. Qed.

Lemma exec_fetchProducts_fulfilled (ps : list Product) (w : World) :
  exec (fetchProducts_fulfilled ps) w =
  {| ui := {| products := ps; loading := false; error := error (ui w) |};
     console := console w ++ [ConsoleLog "Fetched products:" ps] |}.
Proof. reflexivity. Qed.

Lemma exec_fetchProducts_rejected (err : RawError) (w : World) :
  exec (fetchProducts_rejected err) w =
  {| ui := {| products := products (ui w); loading := false;
              error := Some "Failed to fetch products" |};
     console := console w ++ [ConsoleError "Error fetching products:" err] |}.
Proof. reflexivity. Qed.

Lemma exec_handleSearch (query : string) (w : World) :
  exec (handleSearch query) w =
  {| ui := {| products := filter (matchesQuery query) (products (ui w));
              loading := loading (ui w); error := error (ui w) |};
     console := console w |}.
Proof. reflexivity. Qed.

Lemma step_Settle_pending (rt : Runtime) (request : nat) (o : Outcome) :
  isPending request rt = true ->
  step (Settle request o) rt =
  {| world := exec (continuation o) (world rt);
     pending := filter (fun r => negb (Nat.eqb request r)) (pending rt);
     issued := issued rt |}.
Proof. intros H. unfold step. rewrite H. reflexivity. Qed.

Lemma step_Settle_stale (rt : Runtime) (request : nat) (o : Outcome) :
  isPending request rt = false -> step (Settle request o) rt = rt.
Proof. intros H. unfold step. rewrite H. reflexivity. Qed.

Lemma isPending_after_Refresh (rt : Runtime) :
  isPending (issued rt) (step Refresh rt) = true.
Proof.
  unfold isPending. simpl. rewrite Nat.eqb_refl. reflexivity.
Qed.

(** ** Filtering facts *)

Lemma filter_twice {A} (f : A -> bool) (l : list A) :
  filter f (filter f l) = filter f l.
Proof.
  induction l as [|a l IH]; simpl; [reflexivity|].
  destruct (f a) eqn:Ha; simpl; [rewrite Ha, IH|]; auto.
Qed.

Lemma shownProducts_Search (query : string) (rt : Runtime) :
  shownProducts (step (Search query) rt) =
  filter (matchesQuery query) (shownProducts rt).
Proof. reflexivity. Qed.

Lemma startsWith_empty (hay : string) : JsString.startsWith hay "" = true.
Proof. destruct hay; reflexivity. Qed.

Lemma includes_empty (hay : string) : JsString.includes hay "" = true.
Proof. destruct hay; reflexivity. Qed.

Lemma matchesQuery_empty (p : Product) : matchesQuery "" p = true.
Proof. unfold matchesQuery. simpl. apply includes_empty. Qed.

Lemma filter_all_true {A} (f : A -> bool) (l : list A) :
  (forall a, f a = true) -> filter f l = l.
Proof.
  intros H. induction l as [|a l IH]; simpl; [reflexivity|].
  rewrite H, IH. reflexivity.
Qed.

(** An empty query keeps the list that is currently held, whatever it is. *)
Lemma Search_empty_keeps_current (rt : Runtime) :
  shownProducts (step (Search "") rt) = shownProducts rt.
Proof.
  rewrite shownProducts_Search. apply filter_all_true, matchesQuery_empty.
Qed.

(** The query is compared in lower case only. *)
Lemma Search_case_insensitive (q1 q2 : string) (rt : Runtime) :
  JsString.toLowerCase q1 = JsString.toLowerCase q2 ->
  step (Search q1) rt = step (Search q2) rt.
Proof.
  intros H. unfold step. rewrite !exec_handleSearch.
  assert (E : forall p, matchesQuery q1 p = matchesQuery q2 p).
  { intros p. unfold matchesQuery. rewrite H. reflexivity. }
  rewrite (filter_ext _ _ E). reflexivity.
Qed.

(** Letters outside A-Z: the name is U+00C9 followed by "cole", the query
    is U+00E9 alone. *)
Example toLowerCase_E_acute :
  JsString.toLowerCase (String (ascii_of_nat 201) "COLE") =
  String (ascii_of_nat 233) "cole".
Proof. reflexivity. Qed.

Example matchesQuery_E_acute :
  matchesQuery (String (ascii_of_nat 233) "")
    {| id := number "3"; name := String (ascii_of_nat 201) "cole";
       price := number "19.99"; description := "" |} = true.
Proof. reflexivity. Qed.

(** ** The search predicate against its description

    "[name] contains [query] as a case-insensitive substring", written out
    independently of [includes] and [toLowerCase]: some contiguous part of
    the name equals the query letter by letter, up to the case of each
    letter. *)

Inductive equalIgnoringCase : string -> string -> Prop :=
| eic_empty : equalIgnoringCase "" ""
| eic_unit (a b : ascii) (s t : string) :
    JsString.lower_unit a = JsString.lower_unit b ->
    equalIgnoringCase s t ->
    equalIgnoringCase (String a s) (String b t).

Definition containsIgnoringCase (query nm : string) : Prop :=
  exists pre mid post, nm = pre ++ mid ++ post /\ equalIgnoringCase mid query.

(** The members of [l] that satisfy [P], in the order of [l]. *)
Inductive SubsequenceWhere {A : Type} (P : A -> Prop) : list A -> list A -> Prop :=
| sw_done : SubsequenceWhere P [] []
| sw_keep (a : A) (l l' : list A) :
    P a -> SubsequenceWhere P l l' -> SubsequenceWhere P (a :: l) (a :: l')
| sw_drop (a : A) (l l' : list A) :
    ~ P a -> SubsequenceWhere P l l' -> SubsequenceWhere P (a :: l) l'.

Lemma equalIgnoringCase_iff (a b : string) :
  equalIgnoringCase a b <-> JsString.toLowerCase a = JsString.toLowerCase b.
Proof.
  split.
  - induction 1 as [|x y s t Hxy _ IH]; simpl; [reflexivity|].
    rewrite Hxy, IH. reflexivity.
  - revert b. induction a as [|x s IH]; intros [|y t] H; simpl in H;
      try discriminate; [constructor|].
    injection H as Hxy Hst. constructor; auto.
Qed.

Lemma startsWith_iff (hay needle : string) :
  JsString.startsWith hay needle = true <-> exists post, hay = needle ++ post.
Proof.
  revert hay. induction needle as [|a n IH]; intros hay; simpl.
  - destruct hay; split; eauto.
  - destruct hay as [|b h]; simpl.
    + split; [discriminate | intros [post H]; discriminate].
    + rewrite andb_true_iff, Ascii.eqb_eq, IH. split.
      * intros [-> [post ->]]. eauto.
      * intros [post H]. injection H as -> ->. eauto.
Qed.

Lemma includes_iff (hay needle : string) :
  JsString.includes hay needle = true <->
  exists pre post, hay = pre ++ needle ++ post.
Proof.
  induction hay as [|b h IH].
  - change (JsString.includes "" needle)
      with (JsString.startsWith "" needle || false).
    rewrite orb_false_r, startsWith_iff. split.
    + intros [post H]. exists "", post. exact H.
    + intros [[|c pre] [post H]]; [eauto | discriminate].
  - change (JsString.includes (String b h) needle)
      with (JsString.startsWith (String b h) needle || JsString.includes h needle).
    rewrite orb_true_iff, startsWith_iff, IH. split.
    + intros [[post H] | [pre [post H]]].
      * exists "", post. exact H.
      * exists (String b pre), post. simpl. rewrite H. reflexivity.
    + intros [[|c pre] [post H]].
      * left. exists post. exact H.
      * right. simpl in H. injection H as _ H. eauto.
Qed.

Lemma toLowerCase_app (a b : string) :
  JsString.toLowerCase (a ++ b) = JsString.toLowerCase a ++ JsString.toLowerCase b.
Proof. induction a as [|c a IH]; simpl; [|rewrite IH]; reflexivity. Qed.

Lemma toLowerCase_split (s x y : string) :
  JsString.toLowerCase s = x ++ y ->
  exists a b, s = a ++ b /\ JsString.toLowerCase a = x /\ JsString.toLowerCase b = y.
Proof.
  revert s. induction x as [|c x IH]; intros s H.
  - exists "", s. auto.
  - destruct s as [|d s]; simpl in H; [discriminate|].
    injection H as Hc H. destruct (IH _ H) as (a & b & -> & Ha & Hb).
    exists (String d a), b. simpl. rewrite Hc, Ha. auto.
Qed.

(** The predicate of line 37 holds exactly of the products whose name
    contains the query as a case-insensitive substring. *)
Lemma matchesQuery_iff (query : string) (p : Product) :
  matchesQuery query p = true <-> containsIgnoringCase query (name p).
Proof.
  unfold matchesQuery, containsIgnoringCase. rewrite includes_iff. split.
  - intros (pre & post & H).
    apply toLowerCase_split in H. destruct H as (a & rest & Hn & Ha & H).
    apply toLowerCase_split in H. destruct H as (mid & b & -> & Hm & Hb).
    exists a, mid, b. split; [exact Hn|]. apply equalIgnoringCase_iff, Hm.
  - intros (pre & mid & post & Hn & Hm). apply equalIgnoringCase_iff in Hm.
    exists (JsString.toLowerCase pre), (JsString.toLowerCase post).
    rewrite Hn, !toLowerCase_app, Hm. reflexivity.
Qed.

Lemma filter_SubsequenceWhere (query : string) (l : list Product) :
  SubsequenceWhere (fun p => containsIgnoringCase query (name p))
                   l (filter (matchesQuery query) l).
Proof.
  induction l as [|p l IH]; simpl; [constructor|].
  destruct (matchesQuery query p) eqn:Hp.
  - apply sw_keep; [apply matchesQuery_iff, Hp | exact IH].
  - apply sw_drop; [|exact IH].
    intros H. apply matchesQuery_iff in H. congruence.
Qed.

Lemma SubsequenceWhere_unique {A} (P : A -> Prop) (l l1 l2 : list A) :
  SubsequenceWhere P l l1 -> SubsequenceWhere P l l2 -> l1 = l2.
Proof.
  intros H1. revert l2.
  induction H1 as [|a l l1 Ha _ IH|a l l1 Ha _ IH]; intros l2 H2;
    inversion H2; subst; try contradiction; auto.
  f_equal. auto.
Qed.

(** What [handleSearch] computes: the matching subsequence of the list the
    component holds at that moment. *)
Lemma Search_filters_current (query : string) (rt : Runtime) :
  SubsequenceWhere (fun p => containsIgnoringCase query (name p))
                   (shownProducts rt) (shownProducts (step (Search query) rt)).
Proof. rewrite shownProducts_Search. apply filter_SubsequenceWhere. Qed.

(** ** An invariant of the component state

    While the skeleton is shown no error message is held: [loading] only
    becomes [true] in [fetchProducts_begin], which clears [error], and every
    continuation that sets [error] also resets [loading]. *)

Definition consistent (s : State) : Prop :=
  loading s = true -> error s = None.

Lemma consistent_initial : consistent initialState.
Proof. intros H. discriminate H. Qed.

Lemma consistent_step (e : Event) (rt : Runtime) :
  consistent (ui (world rt)) -> consistent (ui (world (step e rt))).
Proof.
  intros Hc. destruct e as [|request o|query]; simpl.
  - intros _. reflexivity.
  - destruct (isPending request rt); [|exact Hc].
    destruct o; intros H; discriminate H.
  - exact Hc.
Qed.

Lemma consistent_run (events : list Event) (rt : Runtime) :
  consistent (ui (world rt)) -> consistent (ui (world (run events rt))).
Proof.
  revert rt. induction events as [|e events IH]; intros rt Hc; simpl.
  - exact Hc.
  - apply IH, consistent_step, Hc.
Qed.

Lemma consistent_reachable (events : list Event) :
  consistent (ui (world (run events initialRuntime))).
Proof. apply consistent_run, consistent_initial. Qed.

Lemma viewState_Loading (s : State) :
  viewState s = Loading <-> loading s = true.
Proof.
  unfold viewState. destruct (loading s).
  - split; reflexivity.
  - split; [|discriminate].
    destruct (truthy (error s)); [discriminate|].
    destruct (products s); discriminate.
Qed.

Lemma viewState_settled (ps : list Product) :
  viewState {| products := ps; loading := false; error := None |} =
  match ps with [] => Empty | _ :: _ => Loaded ps ps end.
Proof. reflexivity. Qed.

Definition isFulfilled (o : Outcome) : bool :=
  match o with
  | Fulfilled _ => true
  | Rejected _ => false
  end.

(** A fulfilment that arrives while an error message is held does not
    remove the message: the screen keeps showing the error panel. *)
Lemma fulfilled_keeps_error_panel (rt : Runtime) (request : nat)
      (fetched : list Product) (message : string) :
  isPending request rt = true ->
  screen rt = Error message ->
  screen (step (Settle request (Fulfilled fetched)) rt) = Error message.
Proof.
  intros Hp. rewrite step_Settle_pending by exact Hp.
  unfold screen, viewState. simpl.
  destruct (loading (ui (world rt))); [discriminate|].
  destruct (truthy (error (ui (world rt)))); [auto|].
  destruct (products (ui (world rt))); discriminate.
Qed.

(** * Properties of the controller *)

(** C7: every call of [fetchProducts] (on mount or from the retry button),
    in any state, shows the loading view and leaves no error message
    behind; in particular this holds when the state before was an error. *)
Theorem Refresh_sets_Loading_and_clears_error (rt : Runtime) :
  screen (step Refresh rt) = Loading /\
  error (ui (world (step Refresh rt))) = None.
Proof. split; reflexivity. Qed.

(** C8: searching twice in a row with the same query leaves the runtime,
    and so the displayed products, exactly as searching once. *)
Theorem Search_idempotent (rt : Runtime) (query : string) :
  step (Search query) (step (Search query) rt) = step (Search query) rt /\
  shownProducts (step (Search query) (step (Search query) rt)) =
  shownProducts (step (Search query) rt).
Proof.
  assert (E : step (Search query) (step (Search query) rt) = step (Search query) rt).
  { unfold step. rewrite !exec_handleSearch. simpl.
    rewrite filter_twice. reflexivity. }
  split; [exact E | rewrite E; reflexivity].
Qed.

(** C6: when the screen is not in the loaded state (loading, error or
    empty), [handleSearch] returns normally and the view state is what it
    was: same tag, same error message, and no loaded state appears. *)
Theorem Search_outside_Loaded_keeps_view (rt : Runtime) (query : string) :
  isLoaded (screen rt) = false ->
  screen (step (Search query) rt) = screen rt.
Proof.
  unfold screen, step. rewrite exec_handleSearch. unfold viewState. simpl.
  destruct (loading (ui (world rt))); [reflexivity|].
  destruct (truthy (error (ui (world rt)))); [reflexivity|].
  destruct (products (ui (world rt))) as [|p ps]; [reflexivity|].
  simpl. discriminate.
Qed.

Lemma Search_outside_Loaded_keeps_view_witness :
  screen (step (Search "anything")
            (run [Refresh; Settle 0 (Rejected timeout_err)] initialRuntime)) =
  screen (run [Refresh; Settle 0 (Rejected timeout_err)] initialRuntime).
Proof.
  apply (Search_outside_Loaded_keeps_view
           (run [Refresh; Settle 0 (Rejected timeout_err)] initialRuntime)
           "anything").
  reflexivity.
Defined.

(** C10: a fetch that fails leaves the product list as it was before the
    fetch began; of the component state only [loading] and [error] change.
    Neither the part before the [await] nor the rejection continuation
    touches [products], in any runtime. *)
Theorem failed_fetch_keeps_products (rt : Runtime) (err : RawError) :
  ui (world (run [Refresh; Settle (issued rt) (Rejected err)] rt)) =
    {| products := shownProducts rt; loading := false;
       error := Some "Failed to fetch products" |} /\
  shownProducts (step Refresh rt) = shownProducts rt /\
  (forall request, shownProducts (step (Settle request (Rejected err)) rt) =
                   shownProducts rt).
Proof.
  split; [|split].
  - change (run [Refresh; Settle (issued rt) (Rejected err)] rt)
      with (step (Settle (issued rt) (Rejected err)) (step Refresh rt)).
    rewrite step_Settle_pending by apply isPending_after_Refresh.
    reflexivity.
  - reflexivity.
  - intros request. unfold step.
    destruct (isPending request rt); reflexivity.
Qed.

(** C5: when a pending fetch is rejected, whatever the error, the state is
    the error state with the fixed, non-empty message
    "Failed to fetch products"; the component state does not depend on the
    rejection value, which only goes to [console.error]. *)
Theorem rejected_yields_stable_Error (rt : Runtime) (request : nat) (err : RawError) :
  isPending request rt = true ->
  let rt' := step (Settle request (Rejected err)) rt in
  screen rt' = Error "Failed to fetch products" /\
  "Failed to fetch products" <> "" /\
  (forall err', ui (world (step (Settle request (Rejected err')) rt)) = ui (world rt')) /\
  console (world rt') =
    (console (world rt) ++ [ConsoleError "Error fetching products:" err])%list.
Proof.
  intros Hp rt'. subst rt'.
  repeat split.
  - rewrite step_Settle_pending by exact Hp. reflexivity.
  - discriminate.
  - intros err'. rewrite !step_Settle_pending by exact Hp. reflexivity.
  - rewrite step_Settle_pending by exact Hp. reflexivity.
Qed.

Lemma rejected_yields_stable_Error_witness :
  screen (step (Settle 0 (Rejected timeout_err)) (step Refresh initialRuntime)) =
  Error "Failed to fetch products".
Proof.
  apply (rejected_yields_stable_Error (step Refresh initialRuntime) 0 timeout_err).
  reflexivity.
Defined.

Lemma not_Error_no_message (events : list Event) :
  let rt := run events initialRuntime in
  (forall message, screen rt <> Error message) ->
  truthy (error (ui (world rt))) = None.
Proof.
  intros rt H. pose proof (consistent_reachable events) as Hc. fold rt in Hc.
  unfold consistent in Hc. unfold screen, viewState in H.
  destruct (loading (ui (world rt))).
  - rewrite Hc; reflexivity.
  - destruct (truthy (error (ui (world rt)))) as [m|]; [|reflexivity].
    exfalso. apply (H m). reflexivity.
Qed.

(** C3, the claim as stated fails: after two overlapping calls of which the
    second was rejected, request 0 is still pending, and its fulfilment with
    the non-empty list [chair; table] leaves the error state, not the
    loaded one. *)
Lemma fulfilled_nonempty_after_rejection_stays_Error :
  let rt := run [Refresh; Refresh; Settle 1 (Rejected timeout_err)] initialRuntime in
  isPending 0 rt = true /\
  [chair; table] <> [] /\
  screen (step (Settle 0 (Fulfilled [chair; table])) rt) =
    Error "Failed to fetch products" /\
  screen (step (Settle 0 (Fulfilled [chair; table])) rt) <>
    Loaded [chair; table] [chair; table].
Proof. repeat split; try reflexivity; discriminate. Qed.

(** C3, amended: in any runtime reached from the mount, the fulfilment of a
    pending fetch with a non-empty product sequence stores that sequence;
    it puts the screen in the loaded state, with the sequence as both the
    authoritative and the visible set, unless the screen shows the error
    state at that moment, in which case the error state stays with its
    message. *)
Theorem fulfilled_nonempty_Loaded_unless_Error
        (events : list Event) (request : nat) (fetched : list Product) :
  let rt := run events initialRuntime in
  let rt' := step (Settle request (Fulfilled fetched)) rt in
  isPending request rt = true ->
  fetched <> [] ->
  ((forall message, screen rt <> Error message) ->
   screen rt' = Loaded fetched fetched) /\
  (forall message, screen rt = Error message -> screen rt' = Error message) /\
  shownProducts rt' = fetched.
Proof.
  intros rt rt' Hp Hne. subst rt'. split; [|split].
  - intros Hno. apply not_Error_no_message in Hno. fold rt in Hno.
    rewrite step_Settle_pending by exact Hp.
    unfold screen, viewState. simpl. rewrite Hno.
    destruct fetched; [contradiction | reflexivity].
  - intros message Hm. apply fulfilled_keeps_error_panel; assumption.
  - rewrite step_Settle_pending by exact Hp. reflexivity.
Qed.

Lemma fulfilled_nonempty_Loaded_unless_Error_witness :
  screen (step (Settle 0 (Fulfilled [chair; table])) (run [Refresh] initialRuntime)) =
  Loaded [chair; table] [chair; table].
Proof.
  apply (fulfilled_nonempty_Loaded_unless_Error [Refresh] 0 [chair; table]).
  - reflexivity.
  - discriminate.
  - intros message. discriminate.
Defined.

(** C4, the claim as stated fails: after two overlapping calls of which the
    second was rejected, request 0 is still pending, and its fulfilment with
    no product leaves the error state, not the empty one. *)
Lemma fulfilled_empty_after_rejection_stays_Error :
  let rt := run [Refresh; Refresh; Settle 1 (Rejected timeout_err)] initialRuntime in
  isPending 0 rt = true /\
  screen (step (Settle 0 (Fulfilled [])) rt) = Error "Failed to fetch products" /\
  screen (step (Settle 0 (Fulfilled [])) rt) <> Empty.
Proof. repeat split; try reflexivity; discriminate. Qed.

(** C4, amended: in any runtime reached from the mount, the fulfilment of a
    pending fetch with no product at all empties the list held; it puts the
    screen in the empty state, which is none of loading, error and loaded,
    unless the screen shows the error state at that moment, in which case
    the error state stays with its message. *)
Theorem fulfilled_empty_Empty_unless_Error (events : list Event) (request : nat) :
  let rt := run events initialRuntime in
  let rt' := step (Settle request (Fulfilled [])) rt in
  isPending request rt = true ->
  ((forall message, screen rt <> Error message) ->
   screen rt' = Empty /\
   screen rt' <> Loading /\ (forall message, screen rt' <> Error message) /\
   (forall all visible, screen rt' <> Loaded all visible)) /\
  (forall message, screen rt = Error message -> screen rt' = Error message) /\
  shownProducts rt' = [].
Proof.
  intros rt rt' Hp. subst rt'. split; [|split].
  - intros Hno. apply not_Error_no_message in Hno. fold rt in Hno.
    assert (Hv : screen (step (Settle request (Fulfilled [])) rt) = Empty).
    { rewrite step_Settle_pending by exact Hp.
      unfold screen, viewState. simpl. rewrite Hno. reflexivity. }
    rewrite Hv. repeat split; intros; discriminate.
  - intros message Hm. apply fulfilled_keeps_error_panel; assumption.
  - rewrite step_Settle_pending by exact Hp. reflexivity.
Qed.

Lemma fulfilled_empty_Empty_unless_Error_witness :
  screen (step (Settle 0 (Fulfilled [])) (run [Refresh] initialRuntime)) = Empty.
Proof.
  apply (fulfilled_empty_Empty_unless_Error [Refresh] 0).
  - reflexivity.
  - intros message. discriminate.
Defined.


(** ** Overlapping fetches *)

Lemma eqb_succ_l (n : nat) : Nat.eqb (S n) n = false.
Proof. apply Nat.eqb_neq. lia. Qed.

Lemma eqb_succ_r (n : nat) : Nat.eqb n (S n) = false.
Proof. apply Nat.eqb_neq. lia. Qed.

Ltac settle_requests :=
  unfold run, step, isPending;
  repeat (cbn [fold_left pending issued world existsb filter orb negb];
          rewrite ?Nat.eqb_refl, ?eqb_succ_l, ?eqb_succ_r).

(** Two calls of [fetchProducts] before either promise settles: both
    continuations run, in the order in which the promises settle. *)
Lemma overlapping_world (rt : Runtime) (early late : nat) (o_early o_late : Outcome) :
  (early = issued rt /\ late = S (issued rt)) \/
  (early = S (issued rt) /\ late = issued rt) ->
  world (run [Refresh; Refresh; Settle early o_early; Settle late o_late] rt) =
  exec (continuation o_late)
    (exec (continuation o_early)
       (exec fetchProducts_begin (exec fetchProducts_begin (world rt)))).
Proof.
  intros [[-> ->] | [-> ->]]; settle_requests; reflexivity.
Qed.


(** When the promise that settles first is rejected and the one that
    settles last is fulfilled, the error message set by the rejection is
    still held at the end, and the error panel is what the screen shows. *)
Lemma fulfilment_after_overlapping_rejection
      (rt : Runtime) (early late : nat) (err : RawError) (fetched : list Product) :
  (early = issued rt /\ late = S (issued rt)) \/
  (early = S (issued rt) /\ late = issued rt) ->
  screen (run [Refresh; Refresh; Settle early (Rejected err);
               Settle late (Fulfilled fetched)] rt) =
  Error "Failed to fetch products".
Proof.
  intros Horder. unfold screen. rewrite overlapping_world by exact Horder.
  reflexivity.
Qed.




(** ** The single [products] array under [handleSearch] *)

(** The first search after a fulfilled fetch shows exactly the matching
    subsequence of the fetched list. *)
Lemma first_Search_after_fetch
      (rt : Runtime) (request : nat) (fetched : list Product) (query : string) :
  isPending request rt = true ->
  SubsequenceWhere (fun p => containsIgnoringCase query (name p)) fetched
    (shownProducts (step (Search query) (step (Settle request (Fulfilled fetched)) rt))).
Proof.
  intros Hp. rewrite shownProducts_Search.
  rewrite step_Settle_pending by exact Hp.
  apply filter_SubsequenceWhere.
Qed.

(** C1: at the trace "fetch [chair; table], then search cha" the list stored
    by the last fulfilled fetch is [chair; table], but the only list the
    component holds after the search is [chair]: [handleSearch] has written
    its result over the fetched list, and a search without a match leaves
    the empty-catalogue state. *)
Theorem Search_overwrites_fetched_list :
  let fetch := [Refresh; Settle 0 (Fulfilled [chair; table])] in
  lastFetched (fetch ++ [Search "cha"]) initialRuntime = Some [chair; table] /\
  screen (run fetch initialRuntime) = Loaded [chair; table] [chair; table] /\
  screen (run (fetch ++ [Search "cha"]) initialRuntime) = Loaded [chair] [chair] /\
  screen (run (fetch ++ [Search "zzz"]) initialRuntime) = Empty.
Proof. repeat split; reflexivity. Qed.

(** C2: at the trace "fetch [chair; table], search cha" the screen is
    loaded; a following search for the empty string shows [chair] where the
    matching subsequence of the fetched list is [chair; table], and a
    following search for tab shows nothing where it is [table]. *)
Theorem Search_filters_previous_result :
  let fetched := [chair; table] in
  let rt := run [Refresh; Settle 0 (Fulfilled fetched); Search "cha"] initialRuntime in
  isLoaded (screen rt) = true /\
  filter (matchesQuery "") fetched = [chair; table] /\
  screen (step (Search "") rt) = Loaded [chair] [chair] /\
  filter (matchesQuery "tab") fetched = [table] /\
  screen (step (Search "tab") rt) = Empty.
Proof. repeat split; reflexivity. Qed.

(** * Further properties of the screen *)

(** ** Successive searches *)

Lemma string_app_assoc (a b c : string) : (a ++ b) ++ c = a ++ b ++ c.
Proof. induction a as [|x a IH]; simpl; [|rewrite IH]; reflexivity. Qed.

Lemma filter_filter {A} (f g : A -> bool) (l : list A) :
  filter g (filter f l) = filter (fun a => f a && g a) l.
Proof.
  induction l as [|a l IH]; simpl; [reflexivity|].
  destruct (f a); simpl; [destruct (g a)|]; rewrite IH; reflexivity.
Qed.

Lemma filter_absorbs {A} (f g : A -> bool) (l : list A) :
  (forall a, g a = true -> f a = true) ->
  filter g (filter f l) = filter g l.
Proof.
  intros H. rewrite filter_filter. apply filter_ext. intros a.
  destruct (g a) eqn:Hg; [rewrite (H a Hg)|rewrite andb_false_r]; reflexivity.
Qed.

Lemma includes_trans (a b c : string) :
  JsString.includes a b = true -> JsString.includes b c = true ->
  JsString.includes a c = true.
Proof.
  rewrite !includes_iff. intros (p1 & s1 & ->) (p2 & s2 & ->).
  exists (p1 ++ p2), (s2 ++ s1).
  rewrite !string_app_assoc. reflexivity.
Qed.

Lemma containsIgnoringCase_includes (q1 q2 : string) :
  containsIgnoringCase q1 q2 <->
  JsString.includes (JsString.toLowerCase q2) (JsString.toLowerCase q1) = true.
Proof.
  symmetry.
  apply (matchesQuery_iff q1 {| id := number "0"; name := q2;
                              price := number "0"; description := "" |}).
Qed.

Lemma step_Search_eq (query : string) (rt : Runtime) :
  step (Search query) rt =
  {| world :=
       {| ui := {| products := filter (matchesQuery query) (shownProducts rt);
                   loading := loading (ui (world rt));
                   error := error (ui (world rt)) |};
          console := console (world rt) |};
     pending := pending rt;
     issued := issued rt |}.
Proof. reflexivity. Qed.

(** X1: after [handleSearch(query)] the list held is the subsequence, in the
    same order, of the list held before, made of the products whose name
    contains the query as a case-insensitive substring; so a product is
    held afterwards exactly when it was held before and its name matches. *)
Theorem Search_keeps_exactly_the_matches (query : string) (rt : Runtime) :
  SubsequenceWhere (fun p => containsIgnoringCase query (name p))
    (shownProducts rt) (shownProducts (step (Search query) rt)) /\
  (forall p, In p (shownProducts (step (Search query) rt)) <->
             In p (shownProducts rt) /\ containsIgnoringCase query (name p)).
Proof.
  rewrite shownProducts_Search. split.
  - apply filter_SubsequenceWhere.
  - intros p. rewrite filter_In, matchesQuery_iff. reflexivity.
Qed.

(** X2: a search for the empty string changes nothing at all: every name
    includes the empty string, so the list held, the flags, the console and
    the pending fetches are as before. *)
Theorem Search_empty_is_identity (rt : Runtime) : step (Search "") rt = rt.
Proof.
  rewrite step_Search_eq.
  rewrite (filter_all_true _ _ matchesQuery_empty).
  destruct rt as [[[ps l e] c] pd n]. reflexivity.
Qed.

(** X4: typing on: when the earlier query is contained, up to case, in the
    later one, searching for the earlier and then the later gives the same
    runtime as searching for the later one alone. *)
Theorem Search_refined_query (q1 q2 : string) (rt : Runtime) :
  containsIgnoringCase q1 q2 ->
  step (Search q2) (step (Search q1) rt) = step (Search q2) rt.
Proof.
  intros H. apply containsIgnoringCase_includes in H.
  rewrite (step_Search_eq q2 (step (Search q1) rt)), shownProducts_Search.
  rewrite filter_absorbs; [reflexivity|].
  intros p Hp. unfold matchesQuery in *.
  eapply includes_trans; eassumption.
Qed.

Lemma Search_refined_query_witness :
  step (Search "Cha") (step (Search "ch")
    (run [Refresh; Settle 0 (Fulfilled [chair; table])] initialRuntime)) =
  step (Search "Cha")
    (run [Refresh; Settle 0 (Fulfilled [chair; table])] initialRuntime).
Proof.
  apply (Search_refined_query "ch" "Cha").
  exists "", "Ch", "a". split; [reflexivity | repeat constructor].
Defined.

(** X5: two searches in a row give the same runtime in either order: the
    list held is the one of the products that match both queries. *)
Theorem Search_commutes (q1 q2 : string) (rt : Runtime) :
  step (Search q1) (step (Search q2) rt) = step (Search q2) (step (Search q1) rt) /\
  shownProducts (step (Search q1) (step (Search q2) rt)) =
  filter (fun p => matchesQuery q1 p && matchesQuery q2 p) (shownProducts rt).
Proof.
  rewrite (step_Search_eq q1 (step (Search q2) rt)).
  rewrite (step_Search_eq q2 (step (Search q1) rt)).
  rewrite !shownProducts_Search, !filter_filter.
  split.
  - simpl. do 3 f_equal. apply filter_ext. intros p. apply andb_comm.
  - simpl. apply filter_ext. intros p. apply andb_comm.
Qed.

(** ** The list held, as a function of the trace *)

Lemma matchesAll_cons (query : string) (queries : list string) (l : list Product) :
  filter (matchesAll queries) (filter (matchesQuery query) l) =
  filter (matchesAll (query :: queries)) l.
Proof. rewrite filter_filter. reflexivity. Qed.

Lemma shownProducts_step_other (e : Event) (rt : Runtime) :
  (forall query, e <> Search query) ->
  (forall request ps, e = Settle request (Fulfilled ps) -> isPending request rt = false) ->
  shownProducts (step e rt) = shownProducts rt.
Proof.
  intros Hs Hf. destruct e as [|request [ps|err]|query].
  - reflexivity.
  - rewrite step_Settle_stale; [reflexivity | eapply Hf; reflexivity].
  - unfold step. destruct (isPending request rt); reflexivity.
  - exfalso. eapply Hs. reflexivity.
Qed.

Lemma held_products_of_trace (events : list Event) (rt : Runtime) :
  shownProducts (run events rt) =
  filter (matchesAll (queriesSinceFetch events rt))
         (match lastFetched events rt with
          | Some fetched => fetched
          | None => shownProducts rt
          end).
Proof.
  revert rt. induction events as [|e rest IH]; intros rt.
  - simpl. symmetry. apply filter_all_true. reflexivity.
  - change (run (e :: rest) rt) with (run rest (step e rt)).
    rewrite IH. cbn [lastFetched queriesSinceFetch].
    destruct (lastFetched rest (step e rt)) as [fetched|] eqn:Hlater.
    + destruct e; rewrite ?Hlater; reflexivity.
    + destruct e as [|request [ps|err]|query]; rewrite ?Hlater.
      * reflexivity.
      * destruct (isPending request rt) eqn:Hp.
        -- rewrite step_Settle_pending by exact Hp. reflexivity.
        -- rewrite step_Settle_stale by exact Hp. reflexivity.
      * f_equal. unfold step. destruct (isPending request rt); reflexivity.
      * rewrite shownProducts_Search. apply matchesAll_cons.
Qed.

(** X6: at the end of any trace the list held is the list of the last
    fulfilled fetch (the list held at the start when no fetch was
    fulfilled) restricted to the products that match every query typed
    since: queries accumulate until the next fulfilled fetch. *)
Theorem held_products_accumulate_queries (events : list Event) (rt : Runtime) :
  shownProducts (run events rt) =
  filter (matchesAll (queriesSinceFetch events rt))
         (match lastFetched events rt with
          | Some fetched => fetched
          | None => shownProducts rt
          end).
Proof. apply held_products_of_trace. Qed.

(** X7: from the mount on, a product that is held was returned by the last
    fulfilled fetch; before the first fulfilled fetch nothing is held. *)
Theorem held_products_were_fetched (events : list Event) (p : Product) :
  In p (shownProducts (run events initialRuntime)) ->
  exists fetched,
    lastFetched events initialRuntime = Some fetched /\ In p fetched /\
    List.length (shownProducts (run events initialRuntime)) <= List.length fetched.
Proof.
  rewrite held_products_of_trace.
  destruct (lastFetched events initialRuntime) as [fetched|].
  - intros H. exists fetched. split; [reflexivity|]. split.
    + apply filter_In in H. apply H.
    + apply filter_length_le.
  - simpl. intros [].
Qed.

Lemma held_products_were_fetched_witness :
  exists fetched,
    lastFetched [Refresh; Settle 0 (Fulfilled [chair; table]); Search "cha"]
                initialRuntime = Some fetched /\ In chair fetched /\
    List.length (shownProducts
              (run [Refresh; Settle 0 (Fulfilled [chair; table]); Search "cha"]
                   initialRuntime)) <= List.length fetched.
Proof.
  apply (held_products_were_fetched
           [Refresh; Settle 0 (Fulfilled [chair; table]); Search "cha"] chair).
  simpl. left. reflexivity.
Defined.

(** X8: a fetch discards what was typed while it was in flight: after
    [fetchProducts] is called in any state, whatever is searched before the
    promise is fulfilled, the fulfilment leaves the fetched list unfiltered
    on screen (the empty view when it is empty). *)
Theorem fetch_discards_earlier_queries
        (rt : Runtime) (queries : list string) (fetched : list Product) :
  let final :=
    run (Refresh :: map Search queries ++ [Settle (issued rt) (Fulfilled fetched)])%list rt in
  shownProducts final = fetched /\
  screen final = match fetched with [] => Empty | _ :: _ => Loaded fetched fetched end.
Proof.
  intros final. subst final.
  change (run (Refresh :: map Search queries ++ [Settle (issued rt) (Fulfilled fetched)])%list rt)
    with (run (map Search queries ++ [Settle (issued rt) (Fulfilled fetched)])%list
              (step Refresh rt)).
  assert (H : forall r,
             isPending (issued rt) r = true ->
             loading (ui (world r)) = true -> error (ui (world r)) = None ->
             let final := run (map Search queries ++
                                 [Settle (issued rt) (Fulfilled fetched)])%list r in
             shownProducts final = fetched /\
             screen final = match fetched with
                            | [] => Empty | _ :: _ => Loaded fetched fetched end).
  { induction queries as [|q qs IH]; intros r Hp Hl He.
    - cbn [map app]. change (run [Settle (issued rt) (Fulfilled fetched)] r)
        with (step (Settle (issued rt) (Fulfilled fetched)) r).
      rewrite step_Settle_pending by exact Hp.
      unfold shownProducts, screen. simpl. rewrite He.
      split; [reflexivity | apply viewState_settled].
    - cbn [map app].
      change (run (Search q :: map Search qs ++ [Settle (issued rt) (Fulfilled fetched)])%list r)
        with (run (map Search qs ++ [Settle (issued rt) (Fulfilled fetched)])%list
                  (step (Search q) r)).
      apply IH; assumption. }
  apply H; [apply isPending_after_Refresh | reflexivity | reflexivity].
Qed.

(** ** Invariants of the runtime from the mount on *)

Definition failureMessage : string := "Failed to fetch products".

Record wellFormed (rt : Runtime) : Prop := mkWellFormed {
  wf_fresh : Forall (fun r => r < issued rt) (pending rt);
  wf_nodup : NoDup (pending rt);
  wf_logged : List.length (console (world rt)) + List.length (pending rt) = issued rt;
  wf_loading : loading (ui (world rt)) = true -> pending rt <> [];
  wf_error : error (ui (world rt)) = None \/
             error (ui (world rt)) = Some failureMessage
}.

Lemma isPending_In (request : nat) (rt : Runtime) :
  isPending request rt = true <-> In request (pending rt).
Proof.
  unfold isPending. rewrite existsb_exists. split.
  - intros (r & Hin & Heq). apply Nat.eqb_eq in Heq. subst. exact Hin.
  - intros Hin. exists request. split; [exact Hin | apply Nat.eqb_refl].
Qed.

Lemma filter_all_true_on {A} (f : A -> bool) (l : list A) :
  (forall a, In a l -> f a = true) -> filter f l = l.
Proof.
  induction l as [|a l IH]; intros H; simpl; [reflexivity|].
  rewrite (H a (or_introl eq_refl)), IH; [reflexivity|].
  intros b Hb. apply H. right. exact Hb.
Qed.

Lemma remove_request_length (request : nat) (l : list nat) :
  NoDup l -> In request l ->
  S (List.length (filter (fun r => negb (Nat.eqb request r)) l)) = List.length l.
Proof.
  induction 1 as [|x l Hx Hnd IH]; intros Hin; [destruct Hin|].
  simpl. destruct (Nat.eqb_spec request x) as [->|Hne]; simpl.
  - f_equal. f_equal. apply filter_all_true_on.
    intros r Hr. destruct (Nat.eqb_spec x r) as [->|]; [contradiction | reflexivity].
  - f_equal. apply IH. destruct Hin as [->|Hin]; [contradiction | exact Hin].
Qed.

Lemma wellFormed_initial : wellFormed initialRuntime.
Proof.
  constructor; simpl.
  - constructor.
  - constructor.
  - reflexivity.
  - discriminate.
  - left. reflexivity.
Qed.

Lemma wellFormed_step (e : Event) (rt : Runtime) :
  wellFormed rt -> wellFormed (step e rt).
Proof.
  intros [Hf Hn Hl Hld He]. destruct e as [|request o|query].
  - constructor; simpl.
    + constructor; [lia|]. eapply Forall_impl; [|exact Hf]. simpl. intros; lia.
    + constructor; [|exact Hn]. intros Hin.
      rewrite Forall_forall in Hf. apply Hf in Hin. lia.
    + lia.
    + discriminate.
    + left. reflexivity.
  - destruct (isPending request rt) eqn:Hp.
    + rewrite step_Settle_pending by exact Hp.
      apply isPending_In in Hp.
      pose proof (remove_request_length request _ Hn Hp) as Hlen.
      constructor; cbn [pending issued world].
      * rewrite Forall_forall in *. intros r Hr. apply filter_In in Hr. apply Hf, Hr.
      * apply NoDup_filter, Hn.
      * destruct o; simpl; rewrite length_app; simpl; lia.
      * destruct o; simpl; discriminate.
      * destruct o; simpl; [exact He | right; reflexivity].
    + rewrite step_Settle_stale by exact Hp. constructor; assumption.
  - constructor; assumption.
Qed.

Lemma wellFormed_run (events : list Event) (rt : Runtime) :
  wellFormed rt -> wellFormed (run events rt).
Proof.
  revert rt. induction events as [|e rest IH]; intros rt H; [exact H|].
  apply (IH (step e rt)), wellFormed_step, H.
Qed.

Lemma wellFormed_reachable (events : list Event) :
  wellFormed (run events initialRuntime).
Proof. apply wellFormed_run, wellFormed_initial. Qed.

Lemma viewState_Error (s : State) (message : string) :
  viewState s = Error message ->
  loading s = false /\ error s = Some message /\ message <> "".
Proof.
  unfold viewState. destruct (loading s); [discriminate|].
  destruct (error s) as [[|c m]|]; simpl.
  - destruct (products s); discriminate.
  - intros H. injection H as <-. repeat split. discriminate.
  - destruct (products s); discriminate.
Qed.

(** X9: from the mount on, the skeleton is shown only while some call of
    [getProducts()] has not settled yet. *)
Theorem skeleton_only_while_fetching (events : list Event) :
  screen (run events initialRuntime) = Loading ->
  pending (run events initialRuntime) <> [].
Proof.
  intros H. apply viewState_Loading in H.
  apply (wf_loading _ (wellFormed_reachable events)), H.
Qed.

Lemma skeleton_only_while_fetching_witness :
  pending (run [Refresh; Search "cha"] initialRuntime) <> [].
Proof.
  apply (skeleton_only_while_fetching [Refresh; Search "cha"]).
  reflexivity.
Defined.

(** X10: from the mount on, every call of [fetchProducts] is either still
    waiting for its promise or has written exactly one console entry
    ([console.log] on fulfilment, [console.error] on rejection); searches
    write nothing. *)
Theorem every_settled_fetch_logged_once (events : list Event) :
  let rt := run events initialRuntime in
  List.length (console (world rt)) + List.length (pending rt) = issued rt.
Proof. apply (wf_logged _ (wellFormed_reachable events)). Qed.

(** X11: from the mount on, the only text the error panel ever shows is
    "Failed to fetch products". *)
Theorem error_panel_text_is_fixed (events : list Event) (message : string) :
  screen (run events initialRuntime) = Error message ->
  message = "Failed to fetch products".
Proof.
  intros H. apply viewState_Error in H. destruct H as (_ & He & _).
  destruct (wf_error _ (wellFormed_reachable events)) as [Hn | Hs];
    rewrite He in *; [discriminate|].
  injection Hs as ->. reflexivity.
Qed.

Lemma error_panel_text_is_fixed_witness :
  screen (run [Refresh; Settle 0 (Rejected timeout_err)] initialRuntime) =
    Error failureMessage /\
  failureMessage = "Failed to fetch products".
Proof.
  split; [reflexivity|].
  apply (error_panel_text_is_fixed [Refresh; Settle 0 (Rejected timeout_err)]).
  reflexivity.
Defined.

Lemma Error_kept_without_Refresh (events : list Event) (rt : Runtime) :
  ~ In Refresh events ->
  loading (ui (world rt)) = false ->
  error (ui (world rt)) = Some failureMessage ->
  screen (run events rt) = Error failureMessage.
Proof.
  revert rt. induction events as [|e rest IH]; intros rt Hno Hl He.
  - unfold screen, viewState. simpl. rewrite Hl, He. reflexivity.
  - change (run (e :: rest) rt) with (run rest (step e rt)).
    assert (Hrest : ~ In Refresh rest) by (intros H; apply Hno; right; exact H).
    destruct e as [|request o|query].
    + exfalso. apply Hno. left. reflexivity.
    + destruct (isPending request rt) eqn:Hp.
      * rewrite step_Settle_pending by exact Hp.
        apply IH; [exact Hrest | destruct o; reflexivity |].
        destruct o; simpl; [exact He | reflexivity].
      * rewrite step_Settle_stale by exact Hp. apply IH; assumption.
    + apply IH; assumption.
Qed.

(** X12: once the error panel is shown it stays, with the same text, until
    [fetchProducts] is called again: neither a search nor the settlement of
    a fetch that is still in flight, fulfilled or rejected, removes it. *)
Theorem error_panel_stays_until_retry
        (before events : list Event) (message : string) :
  let rt := run before initialRuntime in
  screen rt = Error message ->
  ~ In Refresh events ->
  screen (run events rt) = Error message.
Proof.
  intros rt Hs Hno.
  pose proof (Herr := wf_error _ (wellFormed_reachable before)).
  apply viewState_Error in Hs. destruct Hs as (Hl & He & _).
  fold rt in Herr.
  destruct Herr as [Hn | Hc]; rewrite He in *; [discriminate|].
  injection Hc as ->.
  apply Error_kept_without_Refresh; assumption.
Qed.

Lemma error_panel_stays_until_retry_witness :
  screen (run [Search "cha"; Settle 0 (Fulfilled [chair; table])]
              (run [Refresh; Refresh; Settle 1 (Rejected timeout_err)] initialRuntime)) =
  Error "Failed to fetch products".
Proof.
  apply (error_panel_stays_until_retry
           [Refresh; Refresh; Settle 1 (Rejected timeout_err)]
           [Search "cha"; Settle 0 (Fulfilled [chair; table])]
           "Failed to fetch products").
  - reflexivity.
  - simpl. intros [H | [H | H]]; [discriminate H | discriminate H | exact H].
Defined.

(** X13: [loading] is a flag, not a count: when [fetchProducts] has been
    called twice, the settlement of either call, whatever its outcome,
    takes the skeleton away although the other call is still in flight. *)
Theorem skeleton_ends_with_first_settlement (rt : Runtime) (o : Outcome) :
  (let r := run [Refresh; Refresh; Settle (issued rt) o] rt in
   screen r <> Loading /\ isPending (S (issued rt)) r = true) /\
  (let r := run [Refresh; Refresh; Settle (S (issued rt)) o] rt in
   screen r <> Loading /\ isPending (issued rt) r = true).
Proof.
  split; settle_requests; (split; [|reflexivity]);
    intros H; apply viewState_Loading in H; destruct o; discriminate H.
Qed.

(** ** The element tree *)

Lemma presses_productCells (data : list Product) :
  flat_map (fun cell => presses (snd cell)) (productCells data) =
  map (fun item => RouterPush ("/product/" ++ JsValue.toString (id item))) data.
Proof.
  induction data as [|item data IH]; simpl; [reflexivity|].
  f_equal. exact IH.
Qed.

Lemma cellKeys_productCells (data : list Product) :
  cellKeys (FlatList (productCells data)) =
  map (fun item => JsValue.toString (id item)) data.
Proof.
  cbn [cellKeys].
  assert (E : flat_map (fun cell => cellKeys (snd cell)) (productCells data) = []).
  { induction data as [|item data IH]; simpl; [reflexivity | exact IH]. }
  rewrite E, app_nil_r. unfold productCells. rewrite map_map. reflexivity.
Qed.

Lemma Press_eqb_eq (a b : Press) : Press_eqb a b = true <-> a = b.
Proof.
  destruct a as [|x], b as [|y]; simpl; split; try discriminate; try reflexivity.
  - intros H. apply String.eqb_eq in H. subst. reflexivity.
  - intros H. injection H as ->. apply String.eqb_refl.
Qed.

Lemma offered_press_In (s : State) (p : Press) :
  offered s (PressTouchable p) = true <-> In p (flat_map presses (render s)).
Proof.
  unfold offered. rewrite existsb_exists. split.
  - intros (x & Hin & Heq). apply Press_eqb_eq in Heq. subst. exact Hin.
  - intros Hin. exists p. split; [exact Hin | apply Press_eqb_eq; reflexivity].
Qed.

(** The press handlers on screen, view by view. *)
Lemma presses_render (s : State) :
  flat_map presses (render s) =
  match viewState s with
  | Loading => []
  | Error _ => [CallFetchProducts]
  | Empty => []
  | Loaded _ visible =>
      map (fun item => RouterPush ("/product/" ++ JsValue.toString (id item))) visible
  end.
Proof.
  unfold render, viewState. destruct (loading s); [reflexivity|].
  destruct (truthy (error s)); [reflexivity|].
  destruct (products s) as [|p ps]; [reflexivity|].
  cbn [flat_map presses app]. rewrite presses_productCells, app_nil_r. reflexivity.
Qed.

(** X14: the header, and with it the search box, is part of all four
    views, while the "Try Again" button that calls [fetchProducts] is on
    screen exactly when the error panel is shown. *)
Theorem retry_offered_exactly_on_error (s : State) (query : string) :
  offered s (TypeQuery query) = true /\
  (offered s (PressTouchable CallFetchProducts) = true <->
   exists message, viewState s = Error message).
Proof.
  split.
  - unfold offered, render. destruct (loading s); [reflexivity|].
    destruct (truthy (error s)); [reflexivity|].
    destruct (products s); reflexivity.
  - rewrite offered_press_In, presses_render.
    destruct (viewState s) as [|m| |a v]; simpl.
    + split; [intros [] | intros [m H]; discriminate H].
    + split; [intros _; exists m; reflexivity | intros _; left; reflexivity].
    + split; [intros [] | intros [m H]; discriminate H].
    + split; [|intros [m H]; discriminate H].
      intros H. apply in_map_iff in H. destruct H as (p & Hp & _). discriminate Hp.
Qed.

Lemma cellKeys_render (s : State) :
  flat_map cellKeys (render s) =
  match viewState s with
  | Loading => map JsValue.ofIndex (seq 0 10)
  | Loaded _ visible => map (fun item => JsValue.toString (id item)) visible
  | _ => []
  end.
Proof.
  unfold render, viewState. destruct (loading s); [reflexivity|].
  destruct (truthy (error s)); [reflexivity|].
  destruct (products s) as [|p ps]; [reflexivity|].
  cbn [flat_map app]. rewrite cellKeys_productCells, app_nil_r. reflexivity.
Qed.

(** X18: in the grid, two products with the same id get the same key: the
    keys of the cells are distinct only if the ids of the products held
    are. *)
Theorem grid_keys_repeat_repeated_ids (s : State) :
  isLoaded (viewState s) = true ->
  NoDup (flat_map cellKeys (render s)) -> NoDup (map id (products s)).
Proof.
  rewrite cellKeys_render. unfold viewState. destruct (loading s); [discriminate|].
  destruct (truthy (error s)); [discriminate|].
  destruct (products s) as [|p ps]; [discriminate|].
  intros _ H. rewrite <- (map_map id JsValue.toString) in H.
  apply NoDup_map_inv in H. exact H.
Qed.

Lemma grid_keys_repeat_repeated_ids_witness :
  NoDup (map id [chair; table]).
Proof.
  apply (grid_keys_repeat_repeated_ids
           {| products := [chair; table]; loading := false; error := None |}).
  - reflexivity.
  - simpl. repeat constructor; simpl; intuition discriminate.
Defined.

Lemma render_shape (s : State) :
  (viewState s = Loading /\ render s = [Header; FlatList skeletonCells]) \/
  (exists message,
     viewState s = Error message /\
     render s = [Header; Text message;
                 TouchableOpacity CallFetchProducts [Text "Try Again"]]) \/
  (viewState s = Empty /\ render s = [Header; Text "No products found."]) \/
  (exists p ps,
     viewState s = Loaded (p :: ps) (p :: ps) /\
     render s = [Header; FlatList (productCells (p :: ps))]).
Proof.
  unfold render, viewState. destruct (loading s); [left; auto|].
  destruct (truthy (error s)) as [m|]; [right; left; eauto|].
  destruct (products s) as [|p ps]; [right; right; left; auto|].
  right; right; right. eauto.
Qed.

(** X19: the element tree depends on the component state through the view
    state only: two states with the same view state (loading, error with
    its message, empty, or the list held) return the same tree.  A list
    kept in [products] while the skeleton or the error panel is shown is
    not displayed. *)
Theorem render_determined_by_viewState (s1 s2 : State) :
  viewState s1 = viewState s2 -> render s1 = render s2.
Proof.
  destruct (render_shape s1) as [[V1 R1] | [(m1 & V1 & R1) | [[V1 R1] | (p1 & l1 & V1 & R1)]]];
  destruct (render_shape s2) as [[V2 R2] | [(m2 & V2 & R2) | [[V2 R2] | (p2 & l2 & V2 & R2)]]];
    rewrite V1, V2, R1, R2; intros H; congruence.
Qed.

Lemma render_determined_by_viewState_witness :
  render {| products := [chair; table]; loading := true; error := None |} =
  render {| products := []; loading := true; error := Some "stale" |}.
Proof.
  apply (render_determined_by_viewState
           {| products := [chair; table]; loading := true; error := None |}
           {| products := []; loading := true; error := Some "stale" |}).
  reflexivity.
Defined.

(** ** What the user can reach without a new fetch *)

Definition settled (v : ViewState) : bool :=
  match v with
  | Empty | Loaded _ _ => true
  | Loading | Error _ => false
  end.

(** The queries typed among a list of actions, in order. *)
Fixpoint typedQueries (actions : list UserAction) : list string :=
  match actions with
  | [] => []
  | TypeQuery query :: rest => query :: typedQueries rest
  | PressTouchable _ :: rest => typedQueries rest
  end.

Lemma settled_iff (s : State) :
  settled (viewState s) = true <->
  loading s = false /\ truthy (error s) = None.
Proof.
  unfold viewState. destruct (loading s); simpl.
  - split; [discriminate | intros [H _]; discriminate H].
  - destruct (truthy (error s)); simpl.
    + split; [discriminate | intros [_ H]; discriminate H].
    + destruct (products s); simpl; split; auto.
Qed.

Lemma viewState_Empty (s : State) :
  viewState s = Empty -> products s = [].
Proof.
  unfold viewState. destruct (loading s); [discriminate|].
  destruct (truthy (error s)); [discriminate|].
  destruct (products s); [reflexivity | discriminate].
Qed.

Lemma Search_on_nothing (query : string) (rt : Runtime) :
  shownProducts rt = [] -> step (Search query) rt = rt.
Proof.
  intros H. rewrite step_Search_eq, H.
  destruct rt as [[[ps l e] c] pd n].
  unfold shownProducts in H. simpl in H. subst ps. reflexivity.
Qed.

(** X20: the empty view is a dead end for the user.  It carries no button,
    and a search on an empty list leaves it empty, so whatever the user
    does while "No products found." is shown (after an empty catalogue or
    after a search without a match) leaves the application exactly as it
    is; only the settlement of a fetch still in flight can change it. *)
Theorem empty_view_is_a_dead_end (actions : list UserAction) (app app' : App) :
  screen (runtime app) = Empty ->
  userRun actions app = Some app' ->
  app' = app.
Proof.
  revert app. induction actions as [|a rest IH]; intros app He Hrun.
  - injection Hrun as <-. reflexivity.
  - simpl in Hrun.
    destruct (offered (ui (world (runtime app))) a) eqn:Ho; [|discriminate Hrun].
    destruct a as [query|p].
    + assert (E : perform (TypeQuery query) app = app).
      { unfold perform. rewrite Search_on_nothing.
        - destruct app. reflexivity.
        - apply viewState_Empty, He. }
      rewrite E in Hrun. apply IH; assumption.
    + exfalso. apply offered_press_In in Ho.
      rewrite presses_render in Ho. unfold screen in He. rewrite He in Ho.
      destruct Ho.
Qed.

Lemma empty_view_is_a_dead_end_witness :
  let app := {| runtime := run [Refresh; Settle 0 (Fulfilled [chair; table]);
                                Search "zzz"] initialRuntime;
                pushed := [] |} in
  userRun [TypeQuery ""; TypeQuery "chair"] app = Some app /\ app = app.
Proof.
  intros app. split; [reflexivity|].
  apply (empty_view_is_a_dead_end [TypeQuery ""; TypeQuery "chair"] app app);
    reflexivity.
Defined.

(** X21: from the grid or the empty view the user cannot start a fetch: the
    only button that calls [fetchProducts] is on the error panel.  Whatever
    the user does from there, the runtime is the one reached by the typed
    queries alone, so the list held can only get shorter, and no call of
    [getProducts()] is issued. *)
Theorem no_refetch_without_error (actions : list UserAction) (app app' : App) :
  settled (screen (runtime app)) = true ->
  userRun actions app = Some app' ->
  runtime app' = run (map Search (typedQueries actions)) (runtime app) /\
  issued (runtime app') = issued (runtime app) /\
  settled (screen (runtime app')) = true.
Proof.
  revert app. induction actions as [|a rest IH]; intros app Hs Hrun.
  - injection Hrun as <-. auto.
  - simpl in Hrun.
    destruct (offered (ui (world (runtime app))) a) eqn:Ho; [|discriminate Hrun].
    destruct a as [query|p].
    + apply IH in Hrun.
      * exact Hrun.
      * unfold screen in *. apply settled_iff in Hs. apply settled_iff. exact Hs.
    + apply offered_press_In in Ho. rewrite presses_render in Ho.
      unfold screen in Hs.
      destruct (viewState (ui (world (runtime app)))) as [|m| |a v] eqn:Hv;
        try discriminate Hs; [destruct Ho|].
      apply in_map_iff in Ho. destruct Ho as (item & <- & _).
      apply IH in Hrun.
      * exact Hrun.
      * unfold screen. simpl. rewrite Hv. reflexivity.
Qed.

Lemma no_refetch_without_error_witness :
  let app := {| runtime := run [Refresh; Settle 0 (Fulfilled [chair; table])]
                               initialRuntime;
                pushed := [] |} in
  let actions := [TypeQuery "a"; PressTouchable (RouterPush "/product/2");
                  TypeQuery "ch"] in
  exists app',
    userRun actions app = Some app' /\
    issued (runtime app') = issued (runtime app) /\
    shownProducts (runtime app') = [chair].
Proof.
  intros app actions.
  exists {| runtime := run [Search "a"; Search "ch"] (runtime app);
            pushed := ["/product/2"] |}.
  split; [reflexivity|]. split; [|reflexivity].
  apply (no_refetch_without_error actions app); reflexivity.
Defined.
